(** * Anime-provider-filter-bot: a shallow embedding of [src/main.py]

    The storage is modelled on its JSON-file backend ([use_mongo = False]):
    the four in-memory dictionaries [local_filters], [local_users],
    [local_groups] and [local_stats].  A Python [dict] is an insertion-ordered
    association list; iteration order matters for [keys()].  User and group
    keys are [str(id)] in the source; they are modelled by the integer id
    itself ([str]/[int] round-trip).  Timestamps ([time.time()]) are opaque
    values passed in as [Z].  Strings are ASCII. *)

From Stdlib Require Import List String Ascii Bool ZArith Lia.
From Stdlib Require Import Sorting.Permutation Sorting.Sorted.
Import ListNotations.
Open Scope Z_scope.
Open Scope string_scope.

(** ** Python dictionaries as insertion-ordered association lists *)

Module Dict.
Section Dict.
Context {K V : Type} (eqb : K -> K -> bool).

(** [d.get(k)] *)
Fixpoint get (d : list (K * V)) (k : K) : option V :=
  match d with
  | [] => None
  | (k', v) :: d' => if eqb k k' then Some v else get d' k
  end.

(** [k in d] *)
Definition mem (d : list (K * V)) (k : K) : bool :=
  match get d k with Some _ => true | None => false end.

(** [d[k] = v]: an existing key keeps its position, a new key goes last. *)
Fixpoint set (d : list (K * V)) (k : K) (v : V) : list (K * V) :=
  match d with
  | [] => [(k, v)]
  | (k', v') :: d' => if eqb k k' then (k', v) :: d' else (k', v') :: set d' k v
  end.

(** [del d[k]] (keys of a dict are unique, so this drops its one entry) *)
Fixpoint del (d : list (K * V)) (k : K) : list (K * V) :=
  match d with
  | [] => []
  | (k', v') :: d' => if eqb k k' then del d' k else (k', v') :: del d' k
  end.

(** [list(d.keys())] *)
Definition keys (d : list (K * V)) : list K := map fst d.
End Dict.
End Dict.

(** ** ASCII text: [str.lower], [str.strip] *)

Definition ascii_lower (c : ascii) : ascii :=
  let n := nat_of_ascii c in
  if (65 <=? n)%nat && (n <=? 90)%nat then ascii_of_nat (n + 32) else c.

Definition py_lower (s : string) : string :=
  string_of_list_ascii (map ascii_lower (list_ascii_of_string s)).

(** [str.isspace] on ASCII: \t \n \v \f \r, \x1c..\x1f and the space. *)
Definition py_isspace (c : ascii) : bool :=
  let n := nat_of_ascii c in
  ((9 <=? n)%nat && (n <=? 13)%nat) || ((28 <=? n)%nat && (n <=? 32)%nat).

Fixpoint lstrip_l (l : list ascii) : list ascii :=
  match l with
  | [] => []
  | c :: l' => if py_isspace c then lstrip_l l' else l
  end.

Definition py_strip (s : string) : string :=
  string_of_list_ascii (rev (lstrip_l (rev (lstrip_l (list_ascii_of_string s))))).

(** [" ".join(parts)] *)
Fixpoint py_join_space (parts : list string) : string :=
  match parts with
  | [] => ""
  | [p] => p
  | p :: ps => p ++ " " ++ py_join_space ps
  end.

(** ** Stored records *)

(** A payload reference ([file_data]) as written by [add_filter_handler]:
    ["added_by"] is the admin id, or ['Unknown'] ([None]) when absent. *)
Record FileData := {
  fd_chat_id : Z;
  fd_message_id : Z;
  fd_added_by : option Z;
  fd_file_type : string;
  fd_added_at : option Z
}.

(** A user entry of [local_users]; ["search_count"] and ["join_date"] are
    read with [.get(.., default)] in the source, hence optional. *)
Record UserInfo := {
  ui_last_seen : Z;
  ui_username : string;
  ui_first_name : string;
  ui_search_count : option Z;
  ui_join_date : option Z
}.

Record GroupInfo := {
  gi_title : string;
  gi_username : string;
  gi_members_count : Z;
  gi_last_active : Z;
  gi_join_date : Z
}.

(** [AdvancedStorage] on its JSON backend. *)
Record Storage := {
  local_filters : list (string * list FileData);
  local_users : list (Z * UserInfo);
  local_groups : list (Z * GroupInfo);
  local_stats : list (string * Z)
}.

Definition with_filters (st : Storage) f :=
  {| local_filters := f; local_users := local_users st;
     local_groups := local_groups st; local_stats := local_stats st |}.
Definition with_users (st : Storage) u :=
  {| local_filters := local_filters st; local_users := u;
     local_groups := local_groups st; local_stats := local_stats st |}.
Definition with_groups (st : Storage) g :=
  {| local_filters := local_filters st; local_users := local_users st;
     local_groups := g; local_stats := local_stats st |}.
Definition with_stats (st : Storage) s :=
  {| local_filters := local_filters st; local_users := local_users st;
     local_groups := local_groups st; local_stats := s |}.

Abbreviation fget := (Dict.get String.eqb).
Abbreviation fset := (Dict.set String.eqb).
Abbreviation fdel := (Dict.del String.eqb).
Abbreviation uget := (Dict.get Z.eqb).
Abbreviation uset := (Dict.set Z.eqb).
Abbreviation udel := (Dict.del Z.eqb).

(** ** Filter methods *)

(** [AdvancedStorage.add_filter] *)
Definition add_filter (st : Storage) (keyword : string) (file_data : FileData)
    (now : Z) : Storage :=
  let keyword := py_lower keyword in
  let file_data :=
    {| fd_chat_id := fd_chat_id file_data; fd_message_id := fd_message_id file_data;
       fd_added_by := fd_added_by file_data; fd_file_type := fd_file_type file_data;
       fd_added_at := Some now |} in
  let fs := local_filters st in
  let fs := match fget fs keyword with None => fset fs keyword [] | Some _ => fs end in
  let cur := match fget fs keyword with Some l => l | None => [] end in
  with_filters st (fset fs keyword (cur ++ [file_data])%list).

(** [AdvancedStorage.delete_filter]: the new storage and the boolean result. *)
Definition delete_filter (st : Storage) (keyword : string) : Storage * bool :=
  let keyword := py_lower keyword in
  let success := Dict.mem String.eqb (local_filters st) keyword in
  if success then (with_filters st (fdel (local_filters st) keyword), true)
  else (st, false).

(** ** User management *)

(** The optional [user_data] dict passed by callers. *)
Record UserData := {
  ud_username : option string;
  ud_first_name : option string;
  ud_search_count : option Z
}.

Definition get_user_info (st : Storage) (user_id : Z) : option UserInfo :=
  uget (local_users st) user_id.

Definition dflt {A} (d : A) (o : option A) : A := match o with Some a => a | None => d end.

(** [AdvancedStorage.add_user] *)
Definition add_user (st : Storage) (user_id : Z) (user_data : option UserData)
    (current_time : Z) : Storage :=
  let sc :=
    match user_data with
    | Some ud => match ud_search_count ud with
                 | Some c => c
                 | None => match get_user_info st user_id with
                           | Some i => dflt 0 (ui_search_count i)
                           | None => 0 end
                 end
    | None => match get_user_info st user_id with
              | Some i => dflt 0 (ui_search_count i)
              | None => 0 end
    end in
  let uname := match user_data with Some ud => dflt "" (ud_username ud) | None => "" end in
  let fname := match user_data with Some ud => dflt "" (ud_first_name ud) | None => "" end in
  let user_info :=
    match uget (local_users st) user_id with
    | None => {| ui_last_seen := current_time; ui_username := uname;
                 ui_first_name := fname; ui_search_count := Some sc;
                 ui_join_date := Some current_time |}
    | Some existing_info =>
        {| ui_last_seen := current_time; ui_username := uname;
           ui_first_name := fname;
           ui_search_count := Some (dflt 0 (ui_search_count existing_info));
           ui_join_date := Some (dflt current_time (ui_join_date existing_info)) |}
    end in
  with_users st (uset (local_users st) user_id user_info).

(** [AdvancedStorage.increment_user_search] *)
Definition increment_user_search (st : Storage) (user_id : Z) : Storage :=
  match uget (local_users st) user_id with
  | Some i =>
      with_users st (uset (local_users st) user_id
        {| ui_last_seen := ui_last_seen i; ui_username := ui_username i;
           ui_first_name := ui_first_name i;
           ui_search_count := Some (dflt 0 (ui_search_count i) + 1);
           ui_join_date := ui_join_date i |})
  | None => st
  end.

(** [AdvancedStorage.get_all_users] *)
Definition get_all_users (st : Storage) : list Z := Dict.keys (local_users st).

(** [AdvancedStorage.remove_user] *)
Definition remove_user (st : Storage) (user_id : Z) : Storage :=
  if Dict.mem Z.eqb (local_users st) user_id
  then with_users st (udel (local_users st) user_id)
  else st.

(** ** Groups and statistics *)

Record ChatData := { cd_title : string; cd_username : string; cd_members_count : Z }.

(** [AdvancedStorage.add_group] *)
Definition add_group (st : Storage) (chat_id : Z) (chat_data : ChatData)
    (current_time : Z) : Storage :=
  let jd := match Dict.get Z.eqb (local_groups st) chat_id with
            | None => current_time
            | Some e => gi_join_date e end in
  let gi := {| gi_title := cd_title chat_data; gi_username := cd_username chat_data;
               gi_members_count := cd_members_count chat_data;
               gi_last_active := current_time; gi_join_date := jd |} in
  with_groups st (Dict.set Z.eqb (local_groups st) chat_id gi).

(** [AdvancedStorage.increment_stat] *)
Definition increment_stat (st : Storage) (stat_name : string) : Storage :=
  with_stats st (fset (local_stats st) stat_name
                   (dflt 0 (fget (local_stats st) stat_name) + 1)).

(** ** The transport: outcomes of a copy call and the observable trace *)

(** What a [copy] / [copy_message] call does: deliver, or raise
    [UserIsBlocked], [PeerIdInvalid], [FloodWait(value)] or another error. *)
Inductive Outcome :=
| Delivered
| UserIsBlocked
| PeerIdInvalid
| FloodWait (value : Z)
| OtherError.

(** Successive calls take their outcomes from a script; an exhausted script
    delivers. *)
Definition pop (script : list Outcome) : Outcome * list Outcome :=
  match script with [] => (Delivered, []) | o :: s => (o, s) end.

(** [Client(..., sleep_threshold=10)]: pyrogram's [invoke] sleeps through a
    flood wait of at most [sleep_threshold] seconds and sends the same
    request again; only a longer wait is raised as [FloodWait] to the caller. *)
Definition sleep_threshold : Z := 10.

Definition absorbed (o : Outcome) : bool :=
  match o with FloodWait v => (v <=? sleep_threshold)%Z | _ => false end.

(** One request through the client, given Telegram's successive answers:
    the retry loop of [invoke]. *)
Fixpoint client_pop (raw : list Outcome) : Outcome * list Outcome :=
  match raw with
  | [] => (Delivered, [])
  | o :: r => if absorbed o then client_pop r else (o, r)
  end.

(** The answers the handlers see.  The scripts of the handlers below are
    these: a [FloodWait] in a script is a wait above [sleep_threshold]
    (lemma [client_pop_view]). *)
Definition client_view (raw : list Outcome) : list Outcome :=
  filter (fun o => negb (absorbed o)) raw.

(** Observable effects: a copy attempt to [target] of message
    [from_chat_id]/[message_id] with its outcome, an [asyncio.sleep] (in
    milliseconds), and an error line printed to the log. *)
Inductive Event :=
| ECopy (target from_chat_id message_id : Z) (o : Outcome)
| ESleepMs (ms : Z)
| EPrintError.

Definition is_copy (e : Event) : bool := match e with ECopy _ _ _ _ => true | _ => false end.

(** The copy calls of a trace, without their outcomes. *)
Fixpoint copies (evs : list Event) : list (Z * Z * Z) :=
  match evs with
  | [] => []
  | ECopy t c m _ :: evs' => (t, c, m) :: copies evs'
  | _ :: evs' => copies evs'
  end.

(** ** Keyword matching: [re.search(r'\b' + re.escape(keyword) + r'\b', text)] *)

(** [\w] on ASCII: letters, digits and the underscore. *)
Definition is_word (c : ascii) : bool :=
  let n := nat_of_ascii c in
  ((48 <=? n)%nat && (n <=? 57)%nat) || ((65 <=? n)%nat && (n <=? 90)%nat)
  || ((97 <=? n)%nat && (n <=? 122)%nat) || (n =? 95)%nat.

Definition word_at (t : list ascii) (p : nat) : bool :=
  match nth_error t p with Some c => is_word c | None => false end.

Definition word_before (t : list ascii) (p : nat) : bool :=
  match p with O => false | S q => word_at t q end.

(** [\b] at position [p]: a word character on exactly one side. *)
Definition at_boundary (t : list ascii) (p : nat) : bool :=
  xorb (word_before t p) (word_at t p).

Fixpoint is_prefix (k t : list ascii) : bool :=
  match k, t with
  | [], _ => true
  | a :: k', b :: t' => Ascii.eqb a b && is_prefix k' t'
  | _ :: _, [] => false
  end.

(** The pattern [\b k \b] matches with its literal part starting at [i]. *)
Definition wb_match_at (k t : list ascii) (i : nat) : bool :=
  is_prefix k (skipn i t) && at_boundary t i && at_boundary t (i + List.length k).

Definition re_search_wb (keyword text : string) : bool :=
  let k := list_ascii_of_string keyword in
  let t := list_ascii_of_string text in
  existsb (wb_match_at k t) (seq 0 (S (List.length t))).

(** The matching loop of [keyword_match_handler], over [all_filters.keys()]. *)
Fixpoint match_keywords (ks : list string) (text : string) : list string :=
  match ks with
  | [] => []
  | k :: ks' =>
      if String.eqb k "" then match_keywords ks' text
      else if re_search_wb k text then k :: match_keywords ks' text
      else match_keywords ks' text
  end.

(** ** Replay of the payloads of the fired keywords *)

(** The inner loop: [for file_data in files_to_send[:10]] (the slice is taken
    by the caller). *)
Fixpoint replay_files (chat_id : Z) (files : list FileData) (script : list Outcome)
    : list Event * list Outcome :=
  match files with
  | [] => ([], script)
  | fd :: fs =>
      let (o, script) := pop script in
      let ev :=
        ECopy chat_id (fd_chat_id fd) (fd_message_id fd) o ::
        match o with
        | Delivered => [ESleepMs 500]
        | FloodWait v => [ESleepMs (v * 1000)]
        | _ => [EPrintError]
        end in
      let (evs, script) := replay_files chat_id fs script in
      (ev ++ evs, script)%list
  end.

(** The outer loop: [for keyword in matched_keywords[:5]]. *)
Fixpoint replay_keywords (chat_id : Z) (all_filters : list (string * list FileData))
    (kws : list string) (script : list Outcome) : list Event * list Outcome :=
  match kws with
  | [] => ([], script)
  | k :: ks =>
      let files_to_send := dflt [] (fget all_filters k) in
      let (e1, script) := replay_files chat_id (firstn 10 files_to_send) script in
      let (e2, script) := replay_keywords chat_id all_filters ks script in
      (e1 ++ e2, script)%list
  end.

(** The chat an inbound text comes from ([filters.private | filters.group]).
    For a group, [members] is [None] when [get_chat_members_count] raises. *)
Inductive Chat :=
| PrivateChat (chat_id : Z) (username first_name : option string)
| GroupChat (chat_id : Z) (title username : option string) (members : option Z).

Definition chat_id_of (c : Chat) : Z :=
  match c with PrivateChat i _ _ => i | GroupChat i _ _ _ => i end.

(** The "Store user/group info" block of [keyword_match_handler]. *)
Definition record_chat (st : Storage) (chat : Chat) (now : Z) : Storage :=
  match chat with
  | PrivateChat cid un fn =>
      let user_data := {| ud_username := Some (dflt "" un);
                          ud_first_name := Some (dflt "" fn);
                          ud_search_count := None |} in
      increment_user_search (add_user st cid (Some user_data) now) cid
  | GroupChat cid ti un mc =>
      add_group st cid {| cd_title := dflt "" ti; cd_username := dflt "" un;
                          cd_members_count := dflt 0 mc |} now
  end.

(** [keyword_match_handler]: the storage afterwards and the trace. *)
Definition keyword_match_handler (st : Storage) (chat : Chat) (text : string)
    (now : Z) (script : list Outcome) : Storage * list Event :=
  let st := record_chat st chat now in
  let text := py_lower text in
  let all_filters := local_filters st in
  let matched_keywords := match_keywords (Dict.keys all_filters) text in
  match matched_keywords with
  | [] => (st, [])
  | _ :: _ =>
      let st := increment_stat st "total_searches" in
      (st, fst (replay_keywords (chat_id_of chat) all_filters
                  (firstn 5 matched_keywords) script))
  end.

(** ** Broadcast *)

Record Tally := { success_count : Z; failed_count : Z; removed_count : Z }.

Definition tally0 : Tally := {| success_count := 0; failed_count := 0; removed_count := 0 |}.

(** One iteration of the loop of [broadcast_handler] on [user_id] whose
    [replied_msg.copy(user_id)] had outcome [o].  Progress edits of the
    status message touch neither the tally nor the storage and are left out. *)
Definition broadcast_step (st : Storage) (tl : Tally) (src_chat src_msg : Z)
    (user_id : Z) (o : Outcome) : Storage * Tally * list Event :=
  let ev := ECopy user_id src_chat src_msg o in
  match o with
  | Delivered =>
      (st, {| success_count := success_count tl + 1; failed_count := failed_count tl;
              removed_count := removed_count tl |}, [ev; ESleepMs 50])
  | UserIsBlocked | PeerIdInvalid =>
      (remove_user st user_id,
       {| success_count := success_count tl; failed_count := failed_count tl + 1;
          removed_count := removed_count tl + 1 |}, [ev])
  | FloodWait v => (st, tl, [ev; ESleepMs (v * 1000)])
  | OtherError =>
      (st, {| success_count := success_count tl; failed_count := failed_count tl + 1;
              removed_count := removed_count tl |}, [ev])
  end.

Fixpoint broadcast_loop (st : Storage) (tl : Tally) (src_chat src_msg : Z)
    (users : list Z) (script : list Outcome) : Storage * Tally * list Event :=
  match users with
  | [] => (st, tl, [])
  | u :: us =>
      let (o, script) := pop script in
      match broadcast_step st tl src_chat src_msg u o with
      | (st, tl, evs) =>
          match broadcast_loop st tl src_chat src_msg us script with
          | (st, tl, evs') => (st, tl, evs ++ evs')%list
          end
      end
  end.

(** [broadcast_handler]: the loop over [get_all_users()], then
    [increment_stat('total_broadcasts')]. *)
Definition broadcast_handler (st : Storage) (src_chat src_msg : Z)
    (script : list Outcome) : Storage * Tally * list Event :=
  match broadcast_loop st tally0 src_chat src_msg (get_all_users st) script with
  | (st, tl, evs) => (increment_stat st "total_broadcasts", tl, evs)
  end.

(** ** Command handlers for filter management *)

(** [add_filter_handler]: [args] is [message.command[1:]]; the keyword is
    [" ".join(args).strip()]. *)
Definition add_filter_handler (st : Storage) (args : list string)
    (file_data : FileData) (now : Z) : Storage :=
  match args with
  | [] => st
  | _ :: _ => add_filter st (py_strip (py_join_space args)) file_data now
  end.

(** [del_filter_handler]: the storage and whether the filter was found. *)
Definition del_filter_handler (st : Storage) (args : list string) : Storage * bool :=
  match args with
  | [] => (st, false)
  | _ :: _ => delete_filter st (py_strip (py_join_space args))
  end.

(** The broadcast outcome class "recipient unreachable". *)
Definition unreachable (o : Outcome) : bool :=
  match o with UserIsBlocked | PeerIdInvalid => true | _ => false end.

Definition other_error (o : Outcome) : bool :=
  match o with OtherError => true | _ => false end.

(** Reading [d.get(name, 0)] of the statistics. *)
Definition stat (st : Storage) (name : string) : Z := dflt 0 (fget (local_stats st) name).

(** The spec's whole-word match, for comparison with [re_search_wb]: an
    occurrence of [keyword] not preceded and not followed by a word
    character. *)
Definition whole_word_at (k t : list ascii) (i : nat) : bool :=
  is_prefix k (skipn i t) && negb (word_before t i) && negb (word_at t (i + List.length k)).

Definition whole_word_match (keyword text : string) : bool :=
  let k := list_ascii_of_string keyword in
  let t := list_ascii_of_string text in
  existsb (whole_word_at k t) (seq 0 (S (List.length t))).

(** The [(chat_id, from_chat_id, message_id)] of the copy of a payload. *)
Definition copy_target (chat_id : Z) (fd : FileData) : Z * Z * Z :=
  (chat_id, fd_chat_id fd, fd_message_id fd).

(** ** Sample data used by the concrete statements *)

Definition user_rec : UserInfo :=
  {| ui_last_seen := 0; ui_username := ""; ui_first_name := "";
     ui_search_count := Some 0; ui_join_date := Some 0 |}.

Definition empty_storage : Storage :=
  {| local_filters := []; local_users := []; local_groups := [];
     local_stats := [("total_searches", 0); ("total_broadcasts", 0)] |}.

(** Ten registered users, ids 1 to 10. *)
Definition ten_users : Storage :=
  with_users empty_storage (map (fun i => (i, user_rec)) [1;2;3;4;5;6;7;8;9;10]).

Definition payload (n : Z) : FileData :=
  {| fd_chat_id := -100; fd_message_id := n; fd_added_by := Some 1;
     fd_file_type := "document"; fd_added_at := Some 0 |}.

Definition twelve_payloads : list FileData := map payload [1;2;3;4;5;6;7;8;9;10;11;12].

(** Six keywords with twelve payloads each. *)
Definition six_filters : Storage :=
  with_filters empty_storage
    (map (fun k => (k, twelve_payloads))
       ["naruto"; "bleach"; "one piece"; "dragon ball"; "avenger"; "death note"]).

(** A message naming the six keywords of [six_filters]. *)
Definition six_titles : string :=
  "naruto bleach one piece dragon ball avenger death note".

(** ** Filter search and listing *)

(** Python's [sub in s] on strings: [sub] occurs somewhere in [s]. *)
Definition py_in (sub s : string) : bool :=
  let k := list_ascii_of_string sub in
  let t := list_ascii_of_string s in
  existsb (fun i => is_prefix k (skipn i t)) (seq 0 (S (List.length t))).

(** [AdvancedStorage.search_filters] *)
Definition search_filters (st : Storage) (query : string) : list string :=
  let query := py_lower query in
  filter (fun k => py_in query k) (Dict.keys (local_filters st)).

(** [search_filter_handler]: [None] when nothing is found (the "No filters
    found" reply), otherwise the rows [(i+1, k, len(files))] of the first page
    and [total_pages]. *)
Definition search_filter_handler (st : Storage) (args : list string)
    : option (list (Z * string * nat) * Z) :=
  match args with
  | [] => None
  | _ :: _ =>
      let found_filters := search_filters st (py_join_space args) in
      match found_filters with
      | [] => None
      | _ :: _ =>
          let page_size := 20 in
          let page_size_n := 20%nat in
          let total_pages := (Z.of_nat (List.length found_filters) + page_size - 1) / page_size in
          let page := firstn page_size_n found_filters in
          let rows :=
            map (fun ik => (Z.of_nat (fst ik) + 1, snd ik,
                            List.length (dflt [] (fget (local_filters st) (snd ik)))))
                (combine (seq 0 (List.length page)) page) in
          Some (rows, total_pages)
      end
  end.

(** [sorted(all_filters.items(), key=lambda x: len(x[1]), reverse=True)]:
    a stable sort on the number of files, largest first. An item goes before
    the first one with at most as many files, so of two equal items the
    earlier one stays first. *)
Fixpoint insert_by_files (x : string * list FileData) (l : list (string * list FileData))
    : list (string * list FileData) :=
  match l with
  | [] => [x]
  | y :: l' =>
      if (List.length (snd y) <=? List.length (snd x))%nat then x :: l
      else y :: insert_by_files x l'
  end.

Definition sort_by_files (items : list (string * list FileData)) :=
  fold_right insert_by_files [] items.

(** [list_filters_handler]: [None] for "No filters", otherwise the listed rows
    [(k, len(v))] of the top 50 and [total_files]. *)
Definition list_filters_handler (st : Storage) : option (list (string * nat) * nat) :=
  match local_filters st with
  | [] => None
  | all_filters =>
      let sorted_filters := sort_by_files all_filters in
      let rows := map (fun kv => (fst kv, List.length (snd kv))) (firstn 50 sorted_filters) in
      let total_files := list_sum (map (fun kv => List.length (snd kv)) all_filters) in
      Some (rows, total_files)
  end.

(** Repeated [/addfilter] under one keyword: [add_filter] called with each
    payload and its time in turn. *)
Fixpoint add_filters (st : Storage) (keyword : string) (adds : list (FileData * Z)) : Storage :=
  match adds with
  | [] => st
  | (fd, t) :: r => add_filters (add_filter st keyword fd t) keyword r
  end.

(** ** Database cleaning *)

(** The loop of [clean_db_handler]: [send_chat_action(user_id, "typing")]
    answers with an outcome from [script]; an unreachable user is removed,
    any other exception (a rate-limit included) keeps the user.  At every
    [index] with [index % max(1, len(users) // 10) == 0] the progress
    [status_msg.edit_text] runs outside any [try]: it takes its outcome from
    [edits] ([Delivered] is success), and an exception ends the handler there.
    The result is the storage, [removed], the remaining [edits] and whether
    the loop was aborted. *)
Fixpoint clean_db_loop (st : Storage) (removed : Z) (index total : nat) (users : list Z)
    (script edits : list Outcome) : Storage * Z * list Outcome * bool :=
  match users with
  | [] => (st, removed, edits, false)
  | u :: us =>
      let (o, script) := pop script in
      let (st, removed) :=
        if unreachable o then (remove_user st u, removed + 1) else (st, removed) in
      if Nat.eqb (Nat.modulo index (Nat.max 1 (Nat.div total 10))) 0 then
        let (e, edits) := pop edits in
        match e with
        | Delivered => clean_db_loop st removed (S index) total us script edits
        | _ => (st, removed, edits, true)
        end
      else clean_db_loop st removed (S index) total us script edits
  end.

(** [clean_db_handler]: the storage and, when the final report is shown, the
    reported [Checked], [Removed] and [Active] figures.  The first
    [reply_text], the progress edits and the final [edit_text] are all
    unguarded; any of them raising ends the handler without a report. *)
Definition clean_db_handler (st : Storage) (script edits : list Outcome)
    : Storage * option (Z * Z * Z) :=
  let (e0, edits) := pop edits in
  match e0 with
  | Delivered =>
      let users := get_all_users st in
      match clean_db_loop st 0 0 (List.length users) users script edits with
      | (st', _, _, true) => (st', None)
      | (st', removed, edits, false) =>
          let (e, _) := pop edits in
          match e with
          | Delivered =>
              (st', Some (Z.of_nat (List.length users), removed,
                          Z.of_nat (List.length users) - removed))
          | _ => (st', None)
          end
      end
  | _ => (st, None)
  end.

(** ** Outcomes per target *)

(** The outcome each target of a loop receives, pairing the targets with the
    transport's successive answers. *)
Fixpoint assign (users : list Z) (script : list Outcome) : list (Z * Outcome) :=
  match users with
  | [] => []
  | u :: us => let (o, s) := pop script in (u, o) :: assign us s
  end.

Definition count_of (p : Outcome -> bool) (l : list (Z * Outcome)) : Z :=
  Z.of_nat (List.length (filter (fun uo => p (snd uo)) l)).

Definition delivered (o : Outcome) : bool := match o with Delivered => true | _ => false end.
Definition rate_limited (o : Outcome) : bool := match o with FloodWait _ => true | _ => false end.

(** A user entry is removed by a loop when its id was answered unreachable. *)
Definition removed_by (l : list (Z * Outcome)) (kv : Z * UserInfo) : bool :=
  existsb (fun uo => Z.eqb (fst uo) (fst kv) && unreachable (snd uo)) l.

(** ** Lemmas on dictionaries *)

Section DictFacts.
Context {K V : Type} (eqb : K -> K -> bool) (eqb_refl : forall k, eqb k k = true).

Lemma dict_get_set_same (d : list (K * V)) k v :
  Dict.get eqb (Dict.set eqb d k v) k = Some v.
Proof.
  induction d as [|[k' v'] d IH]; simpl.
  - now rewrite eqb_refl.
  - destruct (eqb k k') eqn:E; simpl; rewrite E; auto.
Qed.

Lemma dict_get_del_same (d : list (K * V)) k :
  Dict.get eqb (Dict.del eqb d k) k = None.
Proof.
  induction d as [|[k' v'] d IH]; simpl; auto.
  destruct (eqb k k') eqn:E; simpl; try rewrite E; auto.
Qed.

Lemma dict_del_del (d : list (K * V)) k :
  Dict.del eqb (Dict.del eqb d k) k = Dict.del eqb d k.
Proof.
  induction d as [|[k' v'] d IH]; simpl; auto.
  destruct (eqb k k') eqn:E; simpl; try rewrite E; congruence.
Qed.
End DictFacts.

Lemma remove_user_users st u :
  local_users (remove_user st u) =
  if Dict.mem Z.eqb (local_users st) u then udel (local_users st) u else local_users st.
Proof. unfold remove_user; destruct (Dict.mem _ _ _); reflexivity. Qed.

Lemma add_user_existing st uid ud t r :
  uget (local_users st) uid = Some r ->
  uget (local_users (add_user st uid ud t)) uid =
  Some {| ui_last_seen := t;
          ui_username := match ud with Some u => dflt "" (ud_username u) | None => "" end;
          ui_first_name := match ud with Some u => dflt "" (ud_first_name u) | None => "" end;
          ui_search_count := Some (dflt 0 (ui_search_count r));
          ui_join_date := Some (dflt t (ui_join_date r)) |}.
Proof.
  intros H. unfold add_user; cbn [local_users with_users]. rewrite H.
  apply dict_get_set_same, Z.eqb_refl.
Qed.

Lemma add_user_present st uid ud t :
  exists r, uget (local_users (add_user st uid ud t)) uid = Some r /\
            ui_join_date r <> None /\ ui_search_count r <> None.
Proof.
  unfold add_user; cbn [local_users with_users].
  destruct (uget (local_users st) uid) eqn:E;
    (eexists; split; [apply dict_get_set_same, Z.eqb_refl | simpl; split; discriminate]).
Qed.

(** The matching part of [keyword_match_handler] does not touch the users. *)
Lemma keyword_match_handler_users st chat text now script :
  local_users (fst (keyword_match_handler st chat text now script)) =
  local_users (record_chat st chat now).
Proof.
  unfold keyword_match_handler.
  destruct (match_keywords _ _); reflexivity.
Qed.

(** Recording the chat touches neither the filters nor the statistics. *)
Lemma record_chat_filters_stats st chat now :
  local_filters (record_chat st chat now) = local_filters st /\
  local_stats (record_chat st chat now) = local_stats st.
Proof.
  destruct chat as [cid un fn | cid ti un mc]; simpl; [|auto].
  unfold increment_user_search.
  destruct (uget _ cid); auto.
Qed.

(** C10 *)
(** [remove_user] on an id absent from the store leaves the storage as it
    is (and raises nothing: it is a total function), and removing an id
    twice is the same as removing it once. *)
Theorem remove_user_idempotent :
  (forall st uid, Dict.mem Z.eqb (local_users st) uid = false -> remove_user st uid = st) /\
  (forall st uid, remove_user (remove_user st uid) uid = remove_user st uid).
Proof.
  split.
  - intros st uid H. unfold remove_user. now rewrite H.
  - intros st uid. unfold remove_user.
    destruct (Dict.mem Z.eqb (local_users st) uid) eqn:E.
    + assert (Hm : Dict.mem Z.eqb (local_users (with_users st (udel (local_users st) uid))) uid
                   = false).
      { unfold Dict.mem; cbn [local_users with_users]. now rewrite dict_get_del_same. }
      now rewrite Hm.
    + now rewrite E.
Qed.

Lemma remove_user_idempotent_witness :
  Dict.mem Z.eqb (local_users ten_users) 42 = false /\ remove_user ten_users 42 = ten_users.
Proof.
  split; [reflexivity |].
  apply (proj1 remove_user_idempotent). reflexivity.
Defined.

(** C7 *)
(** Re-registering a known user keeps its stored [join_date] and
    [search_count] and refreshes [last_seen], [username] and [first_name];
    after two calls of [add_user] on one id, the [join_date] and
    [search_count] are those recorded by the first call. *)
Theorem add_user_preserves_join_date_and_count :
  (forall st uid ud t r,
     uget (local_users st) uid = Some r ->
     uget (local_users (add_user st uid ud t)) uid =
     Some {| ui_last_seen := t;
             ui_username := match ud with Some u => dflt "" (ud_username u) | None => "" end;
             ui_first_name := match ud with Some u => dflt "" (ud_first_name u) | None => "" end;
             ui_search_count := Some (dflt 0 (ui_search_count r));
             ui_join_date := Some (dflt t (ui_join_date r)) |}) /\
  (forall st uid ud1 ud2 t1 t2,
     let st1 := add_user st uid ud1 t1 in
     let st2 := add_user st1 uid ud2 t2 in
     option_map ui_join_date (uget (local_users st2) uid) =
       option_map ui_join_date (uget (local_users st1) uid) /\
     option_map ui_search_count (uget (local_users st2) uid) =
       option_map ui_search_count (uget (local_users st1) uid) /\
     option_map ui_last_seen (uget (local_users st2) uid) = Some t2).
Proof.
  split.
  - apply add_user_existing.
  - intros st uid ud1 ud2 t1 t2 st1 st2.
    destruct (add_user_present st uid ud1 t1) as [r [Hr [Hj Hs]]].
    subst st1 st2. rewrite (add_user_existing _ _ ud2 t2 _ Hr), Hr. simpl.
    destruct (ui_join_date r); [|congruence].
    destruct (ui_search_count r); [|congruence].
    auto.
Qed.

Lemma add_user_preserves_join_date_and_count_witness :
  uget (local_users ten_users) 3 = Some user_rec /\
  uget (local_users (add_user ten_users 3 None 99)) 3 =
  Some {| ui_last_seen := 99; ui_username := ""; ui_first_name := "";
          ui_search_count := Some 0; ui_join_date := Some 0 |}.
Proof.
  split; [reflexivity |].
  apply ((proj1 add_user_preserves_join_date_and_count) ten_users 3 None 99 user_rec).
  reflexivity.
Defined.

(** C9 *)
(** For every private text message, [keyword_match_handler] raises the
    sender's [search_count] by exactly one, whatever the text and whether a
    keyword fires: a new sender ends with 1, a known one with its count + 1. *)
Theorem private_message_counts_search st cid un fn text now script :
  option_map ui_search_count
    (uget (local_users (fst (keyword_match_handler st (PrivateChat cid un fn) text now script))) cid)
  = Some (Some (match uget (local_users st) cid with
                | Some i => dflt 0 (ui_search_count i)
                | None => 0 end + 1)).
Proof.
  rewrite keyword_match_handler_users.
  unfold record_chat, increment_user_search, add_user. cbn [local_users with_users].
  rewrite dict_get_set_same by apply Z.eqb_refl. cbn [local_users with_users].
  rewrite dict_get_set_same by apply Z.eqb_refl.
  unfold get_user_info. destruct (uget (local_users st) cid); reflexivity.
Qed.

(** ** Replay loops *)

Lemma copies_app a b : copies (a ++ b) = (copies a ++ copies b)%list.
Proof.
  induction a as [|e a IH]; simpl; auto.
  destruct e; simpl; now rewrite IH.
Qed.

Lemma replay_files_copies chat fs script :
  copies (fst (replay_files chat fs script)) = map (copy_target chat) fs.
Proof.
  revert script; induction fs as [|fd fs IH]; intros script; simpl; auto.
  destruct (pop script) as [o sc].
  specialize (IH sc). destruct (replay_files chat fs sc) as [evs sc'].
  simpl in IH |- *. rewrite copies_app, IH.
  destruct o; reflexivity.
Qed.

Lemma replay_keywords_copies chat F kws script :
  copies (fst (replay_keywords chat F kws script)) =
  flat_map (fun k => map (copy_target chat) (firstn 10 (dflt [] (fget F k)))) kws.
Proof.
  revert script; induction kws as [|k kws IH]; intros script; simpl; auto.
  pose proof (replay_files_copies chat (firstn 10 (dflt [] (fget F k))) script) as H1.
  destruct (replay_files chat _ script) as [e1 sc1].
  specialize (IH sc1). destruct (replay_keywords chat F kws sc1) as [e2 sc2].
  simpl in *. rewrite copies_app, H1, IH. reflexivity.
Qed.

Lemma length_flat_map_le {A B} (f : A -> list B) (n : nat) l :
  (forall x, (List.length (f x) <= n)%nat) ->
  (List.length (flat_map f l) <= n * List.length l)%nat.
Proof.
  intros Hf. induction l as [|x l IH]; simpl; [lia|].
  rewrite length_app. specialize (Hf x). lia.
Qed.

(** C4 *)
(** The payload copies of [keyword_match_handler] are exactly the first 10
    payloads of each of the first 5 fired keywords, in order, whatever the
    transport answers; hence at most 50 copies per message, and with six
    fired keywords of twelve payloads each exactly 50 copies are made. *)
Theorem keyword_fanout_caps :
  (forall st chat text now script,
     copies (snd (keyword_match_handler st chat text now script)) =
     flat_map (fun k => map (copy_target (chat_id_of chat))
                            (firstn 10 (dflt [] (fget (local_filters st) k))))
              (firstn 5 (match_keywords (Dict.keys (local_filters st)) (py_lower text)))) /\
  (forall st chat text now script,
     (List.length (copies (snd (keyword_match_handler st chat text now script))) <= 50)%nat) /\
  (List.length (match_keywords (Dict.keys (local_filters six_filters)) (py_lower six_titles)) = 6%nat /\
   List.length (copies (snd (keyword_match_handler six_filters (PrivateChat 1 None None)
                                six_titles 0 []))) = 50%nat).
Proof.
  assert (Hc : forall st chat text now script,
     copies (snd (keyword_match_handler st chat text now script)) =
     flat_map (fun k => map (copy_target (chat_id_of chat))
                            (firstn 10 (dflt [] (fget (local_filters st) k))))
              (firstn 5 (match_keywords (Dict.keys (local_filters st)) (py_lower text)))).
  { intros st chat text now script. unfold keyword_match_handler.
    rewrite (proj1 (record_chat_filters_stats st chat now)).
    destruct (match_keywords _ _) eqn:E; [reflexivity|].
    cbv zeta; cbn [snd]. rewrite replay_keywords_copies. reflexivity. }
  split; [exact Hc | split].
  - intros st chat text now script. rewrite Hc.
    eapply Nat.le_trans; [apply length_flat_map_le with (n := 10%nat)|].
    + intros k. rewrite length_map, length_firstn. lia.
    + rewrite length_firstn. lia.
  - split; vm_compute; reflexivity.
Qed.

(** C8 *)
(** [keyword_match_handler] raises [total_searches] by one when at least
    one keyword fires on the message and leaves it as it is otherwise, however
    many keywords fire. *)
Theorem total_searches_once st chat text now script :
  stat (fst (keyword_match_handler st chat text now script)) "total_searches" =
  stat st "total_searches" +
  match match_keywords (Dict.keys (local_filters st)) (py_lower text) with
  | [] => 0
  | _ :: _ => 1
  end.
Proof.
  destruct (record_chat_filters_stats st chat now) as [Hf Hs].
  unfold keyword_match_handler. rewrite Hf.
  destruct (match_keywords _ _); simpl fst; unfold stat.
  - rewrite Hs. lia.
  - unfold increment_stat; cbn [local_stats with_stats].
    rewrite dict_get_set_same by apply String.eqb_refl.
    rewrite Hs. reflexivity.
Qed.

Lemma client_pop_short v raw :
  v <= sleep_threshold -> client_pop (FloodWait v :: raw) = client_pop raw.
Proof. intros H. simpl. apply Z.leb_le in H. now rewrite H. Qed.

Lemma client_pop_long v raw :
  sleep_threshold < v -> client_pop (FloodWait v :: raw) = (FloodWait v, raw).
Proof. intros H. simpl. apply Z.leb_gt in H. now rewrite H. Qed.

(** Popping the client's view of Telegram's answers is a request through the
    client: a handler run on [client_view raw] is the run on the raw answers. *)
Lemma client_pop_view raw :
  pop (client_view raw) = (fst (client_pop raw), client_view (snd (client_pop raw))).
Proof.
  induction raw as [|o raw IH]; [reflexivity|].
  cbn [client_view filter client_pop]. destruct (absorbed o); [exact IH|reflexivity].
Qed.

(** C2 *)
(** The payload loop of [keyword_match_handler] attempts every payload it is
    given exactly once and in order, whatever the client answers.  A flood
    wait of at most [sleep_threshold] (10 s) is slept through by the client,
    which sends the same copy again; a longer one reaches the loop, which
    sleeps for the given time and goes on with the next payload (the
    rate-limited one is not tried again).  After any other error it prints a
    line and goes on with the next payload. *)
Theorem replay_continues_after_errors :
  (forall chat fs script,
     copies (fst (replay_files chat fs script)) = map (copy_target chat) fs) /\
  (forall raw,
     pop (client_view raw) = (fst (client_pop raw), client_view (snd (client_pop raw)))) /\
  (forall v raw, v <= sleep_threshold -> client_pop (FloodWait v :: raw) = client_pop raw) /\
  (forall v raw, sleep_threshold < v -> client_pop (FloodWait v :: raw) = (FloodWait v, raw)) /\
  (forall chat fd fs v script,
     fst (replay_files chat (fd :: fs) (FloodWait v :: script)) =
     ECopy chat (fd_chat_id fd) (fd_message_id fd) (FloodWait v) :: ESleepMs (v * 1000)
       :: fst (replay_files chat fs script)) /\
  (forall chat fd fs o script,
     unreachable o || other_error o = true ->
     fst (replay_files chat (fd :: fs) (o :: script)) =
     ECopy chat (fd_chat_id fd) (fd_message_id fd) o :: EPrintError
       :: fst (replay_files chat fs script)).
Proof.
  split; [exact replay_files_copies|].
  split; [exact client_pop_view|].
  split; [exact client_pop_short|].
  split; [exact client_pop_long|].
  split.
  - intros chat fd fs v script. simpl.
    destruct (replay_files chat fs script); reflexivity.
  - intros chat fd fs o script Ho. simpl.
    destruct (replay_files chat fs script).
    destruct o; try discriminate Ho; reflexivity.
Qed.

Lemma replay_continues_after_errors_witness :
  (3 <= sleep_threshold /\ client_pop [FloodWait 3; Delivered] = client_pop [Delivered]) /\
  (sleep_threshold < 30 /\ client_pop [FloodWait 30; Delivered] = (FloodWait 30, [Delivered])) /\
  (unreachable OtherError || other_error OtherError = true /\
   fst (replay_files 7 [payload 1; payload 2] [OtherError]) =
   [ECopy 7 (-100) 1 OtherError; EPrintError; ECopy 7 (-100) 2 Delivered; ESleepMs 500]).
Proof.
  destruct replay_continues_after_errors as (_ & _ & Hs & Hl & _ & He).
  split; [split; [unfold sleep_threshold; lia|apply Hs; unfold sleep_threshold; lia]|].
  split; [split; [unfold sleep_threshold; lia|apply Hl; unfold sleep_threshold; lia]|].
  split; [reflexivity|].
  rewrite (He 7 (payload 1) [payload 2] OtherError [] eq_refl). reflexivity.
Defined.

(** C2: a rate-limited payload is not tried again.  With one payload and
    Telegram answering a 30 s flood wait, then delivering, the wait exceeds
    [sleep_threshold] and reaches the loop, which sleeps and ends: the payload
    is never delivered.  A 3 s wait instead is slept through by the client,
    which delivers the payload. *)
Lemma replay_rate_limited_payload_skipped :
  (let evs := fst (replay_files 5 [payload 1] (client_view [FloodWait 30; Delivered])) in
   evs = [ECopy 5 (-100) 1 (FloodWait 30); ESleepMs 30000] /\
   ~ In (ECopy 5 (-100) 1 Delivered) evs) /\
  fst (replay_files 5 [payload 1] (client_view [FloodWait 3; Delivered])) =
    [ECopy 5 (-100) 1 Delivered; ESleepMs 500].
Proof.
  vm_compute. split; [split; [reflexivity|]|reflexivity].
  intros [H|[H|[]]]; discriminate.
Qed.

(** ** Broadcast *)

Lemma broadcast_loop_copies st tl c m users script :
  copies (snd (broadcast_loop st tl c m users script)) = map (fun u => (u, c, m)) users.
Proof.
  revert st tl script; induction users as [|u us IH]; intros st tl script; simpl; auto.
  destruct (pop script) as [o sc].
  destruct (broadcast_step st tl c m u o) as [[st1 tl1] evs] eqn:Hs.
  specialize (IH st1 tl1 sc).
  destruct (broadcast_loop st1 tl1 c m us sc) as [[st2 tl2] evs2].
  simpl in IH |- *. rewrite copies_app, IH.
  destruct o; injection Hs as <- <- <-; reflexivity.
Qed.

(** C1 *)
(** The broadcast loop makes exactly one copy attempt per user, in the order
    of [get_all_users()], whatever the client answers.  A flood wait of at
    most [sleep_threshold] (10 s) is slept through by the client, which sends
    the same copy again; a longer one reaches the loop, which sleeps for the
    given time and goes on with the next user, counting the rate-limited user
    neither as sent nor as failed and not retrying it. *)
Theorem broadcast_one_attempt_per_target :
  (forall st tl c m users script,
     copies (snd (broadcast_loop st tl c m users script)) = map (fun u => (u, c, m)) users) /\
  (forall raw,
     pop (client_view raw) = (fst (client_pop raw), client_view (snd (client_pop raw)))) /\
  (forall v raw, v <= sleep_threshold -> client_pop (FloodWait v :: raw) = client_pop raw) /\
  (forall v raw, sleep_threshold < v -> client_pop (FloodWait v :: raw) = (FloodWait v, raw)) /\
  (forall st tl c m u v,
     broadcast_step st tl c m u (FloodWait v) =
     (st, tl, [ECopy u c m (FloodWait v); ESleepMs (v * 1000)])).
Proof.
  split; [exact broadcast_loop_copies|].
  split; [exact client_pop_view|].
  split; [exact client_pop_short|].
  split; [exact client_pop_long|reflexivity].
Qed.

Lemma broadcast_one_attempt_per_target_witness :
  (5 <= sleep_threshold /\ client_pop [FloodWait 5; Delivered] = client_pop [Delivered]) /\
  (sleep_threshold < 60 /\ client_pop [FloodWait 60; Delivered] = (FloodWait 60, [Delivered])).
Proof.
  destruct broadcast_one_attempt_per_target as (_ & _ & Hs & Hl & _).
  split; [split; [unfold sleep_threshold; lia|apply Hs; unfold sleep_threshold; lia]|].
  split; [unfold sleep_threshold; lia|apply Hl; unfold sleep_threshold; lia].
Defined.

(** C1: a 30 s rate-limit on target 5 of ten exceeds [sleep_threshold] and
    reaches the loop: after the pause the run copies to target 6; target 5 is
    never delivered to, and is counted neither as sent nor as failed (9 sent,
    0 failed).  A 3 s rate-limit on target 5 is slept through by the client
    and target 5 receives the message (10 sent). *)
Lemma broadcast_rate_limited_target_skipped :
  match broadcast_handler ten_users 9 9
          (client_view [Delivered; Delivered; Delivered; Delivered; FloodWait 30]) with
  | (_, tl, evs) =>
      ~ In (ECopy 5 9 9 Delivered) evs /\
      firstn 4 (skipn 8 evs) =
        [ECopy 5 9 9 (FloodWait 30); ESleepMs 30000; ECopy 6 9 9 Delivered; ESleepMs 50] /\
      success_count tl = 9 /\ failed_count tl = 0
  end /\
  match broadcast_handler ten_users 9 9
          (client_view [Delivered; Delivered; Delivered; Delivered; FloodWait 3]) with
  | (_, tl, evs) => In (ECopy 5 9 9 Delivered) evs /\ success_count tl = 10
  end.
Proof.
  vm_compute. split; [split; [|repeat split]|split].
  - intros H; repeat destruct H as [H|H]; try discriminate H; exact H.
  - do 8 right. left. reflexivity.
  - reflexivity.
Qed.

(** C3 *)
(** One broadcast iteration: an unreachable recipient ([UserIsBlocked],
    [PeerIdInvalid]) is removed from the users and counts as failed and
    removed; every other outcome leaves the storage as it is.  With ten users
    of which targets 3 and 7 are unreachable, the tally is 8 sent, 2 failed,
    2 removed, and 8 users remain. *)
Theorem broadcast_unreachable_removed :
  (forall st tl c m u o,
     match broadcast_step st tl c m u o with
     | (st', tl', _) =>
         st' = (if unreachable o then remove_user st u else st) /\
         removed_count tl' = removed_count tl + (if unreachable o then 1 else 0) /\
         failed_count tl' =
           failed_count tl + (if unreachable o || other_error o then 1 else 0) /\
         success_count tl' =
           success_count tl + (match o with Delivered => 1 | _ => 0 end)
     end) /\
  (forall st u, uget (local_users (remove_user st u)) u = None) /\
  (match broadcast_handler ten_users 9 9
           [Delivered; Delivered; UserIsBlocked; Delivered; Delivered;
            Delivered; PeerIdInvalid; Delivered; Delivered; Delivered] with
   | (st', tl, _) =>
       success_count tl = 8 /\ failed_count tl = 2 /\ removed_count tl = 2 /\
       get_all_users st' = [1; 2; 4; 5; 6; 8; 9; 10]
   end).
Proof.
  split; [|split].
  - intros st tl c m u o. destruct o; simpl; repeat split; lia.
  - intros st u. rewrite remove_user_users.
    destruct (Dict.mem Z.eqb (local_users st) u) eqn:E.
    + apply dict_get_del_same.
    + unfold Dict.mem in E. destruct (uget (local_users st) u); congruence.
  - vm_compute. repeat split.
Qed.

(** ** Filter keywords *)

Lemma add_filter_get st kw fd t :
  fget (local_filters (add_filter st kw fd t)) (py_lower kw) =
  Some (dflt [] (fget (local_filters st) (py_lower kw)) ++
        [{| fd_chat_id := fd_chat_id fd; fd_message_id := fd_message_id fd;
            fd_added_by := fd_added_by fd; fd_file_type := fd_file_type fd;
            fd_added_at := Some t |}])%list.
Proof.
  unfold add_filter. cbn [local_filters with_filters].
  rewrite dict_get_set_same by apply String.eqb_refl.
  destruct (fget (local_filters st) (py_lower kw)) eqn:E.
  - rewrite E. reflexivity.
  - rewrite dict_get_set_same by apply String.eqb_refl. reflexivity.
Qed.

(** C6 *)
(** [add_filter] stores the payload under the lower-cased keyword, with the
    keyword neither trimmed nor checked for emptiness; the trimming is done by
    the [/addfilter] and [/delfilter] handlers, so through them two keywords
    equal after trimming and lower-casing reach the same stored entry. *)
Theorem filter_keyword_canonical :
  (forall st kw fd t,
     fget (local_filters (add_filter st kw fd t)) (py_lower kw) =
     Some (dflt [] (fget (local_filters st) (py_lower kw)) ++
           [{| fd_chat_id := fd_chat_id fd; fd_message_id := fd_message_id fd;
               fd_added_by := fd_added_by fd; fd_file_type := fd_file_type fd;
               fd_added_at := Some t |}])%list) /\
  (forall st a1 a2 fd t,
     a1 <> [] -> a2 <> [] ->
     py_lower (py_strip (py_join_space a1)) = py_lower (py_strip (py_join_space a2)) ->
     snd (del_filter_handler (add_filter_handler st a1 fd t) a2) = true) /\
  snd (del_filter_handler (add_filter_handler empty_storage [" Avenger "] (payload 1) 0)
         ["avenger"]) = true.
Proof.
  split; [exact add_filter_get | split].
  - intros st a1 a2 fd t H1 H2 Heq.
    destruct a1 as [|x1 a1]; [congruence|]. destruct a2 as [|x2 a2]; [congruence|].
    unfold del_filter_handler, add_filter_handler, delete_filter.
    rewrite <- Heq. unfold Dict.mem. rewrite add_filter_get. reflexivity.
  - reflexivity.
Qed.

Lemma filter_keyword_canonical_witness :
  ([" Avenger "] <> [] /\ ["avenger"] <> [] /\
   py_lower (py_strip (py_join_space [" Avenger "])) =
   py_lower (py_strip (py_join_space ["avenger"]))) /\
  snd (del_filter_handler (add_filter_handler ten_users [" Avenger "] (payload 1) 0)
         ["avenger"]) = true.
Proof.
  split; [split; [discriminate | split; [discriminate | reflexivity]]|].
  apply (proj1 (proj2 filter_keyword_canonical)); [discriminate | discriminate | reflexivity].
Defined.

(** C6: [add_filter] does not trim: a filter added under [" Avenger "] is
    stored under [" avenger "] and is not found by [delete_filter "avenger"];
    an empty keyword is stored under [""]. *)
Lemma add_filter_keeps_spaces :
  snd (delete_filter (add_filter empty_storage " Avenger " (payload 1) 0) "avenger") = false /\
  Dict.keys (local_filters (add_filter empty_storage " Avenger " (payload 1) 0)) = [" avenger "] /\
  Dict.keys (local_filters (add_filter empty_storage "" (payload 1) 0)) = [""].
Proof. repeat split; reflexivity. Qed.

(** ** Word-boundary matching *)

Lemma match_keywords_filter ks text :
  match_keywords ks text =
  filter (fun k => negb (String.eqb k "") && re_search_wb k text) ks.
Proof.
  induction ks as [|k ks IH]; simpl; auto.
  destruct (String.eqb k ""); simpl; [exact IH|].
  destruct (re_search_wb k text); simpl; congruence.
Qed.

Lemma is_prefix_nth k s :
  is_prefix k s = true ->
  forall j, (j < List.length k)%nat -> nth_error s j = nth_error k j.
Proof.
  revert s; induction k as [|a k IH]; intros s H j Hj; simpl in Hj; [lia|].
  destruct s as [|b s]; [discriminate|].
  simpl in H. apply andb_prop in H as [Hab Hk].
  apply Ascii.eqb_eq in Hab; subst b.
  destruct j as [|j]; simpl; auto.
  apply IH; auto; lia.
Qed.

Lemma last_cons_default (d : ascii) m x y : last (d :: m) x = last (d :: m) y.
Proof.
  revert d; induction m as [|e m IH]; intros d; [reflexivity|].
  change (last (e :: m) x = last (e :: m) y). apply IH.
Qed.

Lemma nth_error_last_cons (c : ascii) m :
  nth_error (c :: m) (List.length m) = Some (last (c :: m) c).
Proof.
  revert c; induction m as [|d m IH]; intros c; [reflexivity|].
  change (nth_error (d :: m) (List.length m) = Some (last (d :: m) c)).
  rewrite IH. f_equal. apply last_cons_default.
Qed.

Lemma existsb_ext' {A} (f g : A -> bool) l :
  (forall x, f x = g x) -> existsb f l = existsb g l.
Proof. intros H. induction l as [|x l IH]; simpl; congruence. Qed.

(** For a keyword starting and ending with a word character, [\b k \b]
    matches at [i] exactly when [k] occurs at [i] as a whole word. *)
Lemma wb_match_at_whole_word c m t i :
  is_word c = true -> is_word (last (c :: m) c) = true ->
  wb_match_at (c :: m) t i = whole_word_at (c :: m) t i.
Proof.
  intros Hc Hl. unfold wb_match_at, whole_word_at.
  destruct (is_prefix (c :: m) (skipn i t)) eqn:P; [|reflexivity].
  pose proof (is_prefix_nth _ _ P) as Hn.
  assert (Hfirst : word_at t i = true).
  { unfold word_at. rewrite <- (Nat.add_0_r i), <- nth_error_skipn.
    rewrite Hn by (simpl; lia). exact Hc. }
  assert (Hlast : word_before t (i + List.length (c :: m)) = true).
  { simpl List.length. rewrite Nat.add_succ_r. unfold word_before, word_at.
    rewrite <- nth_error_skipn, Hn by (simpl; lia).
    rewrite nth_error_last_cons. exact Hl. }
  unfold at_boundary. rewrite Hfirst, Hlast.
  destruct (word_before t i), (word_at t (i + List.length (c :: m))); reflexivity.
Qed.

(** C5 *)
(** [keyword_match_handler] fires the non-empty keywords for which
    [\b keyword \b] matches the lower-cased text; for a keyword that begins
    and ends with a word character this is exactly a whole-word occurrence.
    ["avenger"] fires on ["watch avenger now"] and not on
    ["avengers2 release"]. *)
Theorem keyword_whole_word_match :
  (forall ks text,
     match_keywords ks text =
     filter (fun k => negb (String.eqb k "") && re_search_wb k text) ks) /\
  (forall keyword text c m,
     list_ascii_of_string keyword = c :: m ->
     is_word c = true -> is_word (last (c :: m) c) = true ->
     re_search_wb keyword text = whole_word_match keyword text) /\
  (match_keywords ["avenger"] (py_lower "watch avenger now") = ["avenger"] /\
   match_keywords ["avenger"] (py_lower "avengers2 release") = [] /\
   match_keywords [""] (py_lower "watch avenger now") = []).
Proof.
  split; [exact match_keywords_filter | split].
  - intros keyword text c m Hk Hc Hl.
    unfold re_search_wb, whole_word_match. rewrite Hk.
    apply existsb_ext'. intros i. apply wb_match_at_whole_word; assumption.
  - repeat split; vm_compute; reflexivity.
Qed.

Lemma keyword_whole_word_match_witness :
  (list_ascii_of_string "avenger" = "a"%char :: list_ascii_of_string "venger" /\
   is_word "a"%char = true /\
   is_word (last ("a"%char :: list_ascii_of_string "venger") "a"%char) = true) /\
  re_search_wb "avenger" "watch avenger now" = whole_word_match "avenger" "watch avenger now".
Proof.
  split; [split; [reflexivity | split; reflexivity]|].
  apply (proj1 (proj2 keyword_whole_word_match) "avenger" "watch avenger now"
           "a"%char (list_ascii_of_string "venger")); reflexivity.
Defined.

(** C5: a keyword ending or beginning with a non-word character fires inside
    a larger token: [".net"] fires on ["asp.net"], where it is not a whole
    word. *)
Lemma keyword_fires_inside_token :
  match_keywords [".net"] (py_lower "asp.net") = [".net"] /\
  whole_word_match ".net" "asp.net" = false.
Proof. split; vm_compute; reflexivity. Qed.

(** ** More dictionary facts *)

Section DictSpec.
Context {K V : Type} (eqb : K -> K -> bool) (eqb_spec : forall a b, eqb a b = true <-> a = b).

Lemma dict_eqb_refl k : eqb k k = true.
Proof. now apply eqb_spec. Qed.

Lemma dict_get_set_other (d : list (K * V)) k k2 v :
  k2 <> k -> Dict.get eqb (Dict.set eqb d k v) k2 = Dict.get eqb d k2.
Proof.
  intros Hne. induction d as [|[k' v'] d IH]; simpl.
  - destruct (eqb k2 k) eqn:E; auto. apply eqb_spec in E. congruence.
  - destruct (eqb k k') eqn:E1; simpl.
    + apply eqb_spec in E1; subst k'.
      destruct (eqb k2 k) eqn:E2; auto. apply eqb_spec in E2. congruence.
    + destruct (eqb k2 k'); auto.
Qed.

Lemma dict_get_del_other (d : list (K * V)) k k2 :
  k2 <> k -> Dict.get eqb (Dict.del eqb d k) k2 = Dict.get eqb d k2.
Proof.
  intros Hne. induction d as [|[k' v'] d IH]; simpl; auto.
  destruct (eqb k k') eqn:E1; simpl.
  - apply eqb_spec in E1; subst k'.
    destruct (eqb k2 k) eqn:E2; auto. apply eqb_spec in E2. congruence.
  - destruct (eqb k2 k'); auto.
Qed.

Lemma dict_keys_set (d : list (K * V)) k v :
  Dict.keys (Dict.set eqb d k v) =
  if Dict.mem eqb d k then Dict.keys d else (Dict.keys d ++ [k])%list.
Proof.
  unfold Dict.mem, Dict.keys.
  induction d as [|[k' v'] d IH]; simpl; auto.
  destruct (eqb k k'); simpl; auto.
  rewrite IH. destruct (Dict.get eqb d k); reflexivity.
Qed.

Lemma dict_del_filter (d : list (K * V)) k :
  Dict.del eqb d k = filter (fun kv => negb (eqb k (fst kv))) d.
Proof.
  induction d as [|[k' v'] d IH]; simpl; auto.
  destruct (eqb k k'); simpl; congruence.
Qed.

Lemma dict_get_none_filter (d : list (K * V)) k :
  Dict.get eqb d k = None -> filter (fun kv => negb (eqb k (fst kv))) d = d.
Proof.
  induction d as [|[k' v'] d IH]; simpl; auto.
  destruct (eqb k k'); simpl; [discriminate|]. intros H; now rewrite IH.
Qed.
End DictSpec.

Lemma remove_user_filter st u :
  local_users (remove_user st u) = filter (fun kv => negb (Z.eqb u (fst kv))) (local_users st).
Proof.
  rewrite remove_user_users. unfold Dict.mem.
  destruct (uget (local_users st) u) eqn:E.
  - apply dict_del_filter.
  - symmetry. now apply dict_get_none_filter.
Qed.

Lemma remove_user_other st u :
  local_filters (remove_user st u) = local_filters st /\
  local_groups (remove_user st u) = local_groups st /\
  local_stats (remove_user st u) = local_stats st.
Proof. unfold remove_user. destruct (Dict.mem _ _ _); auto. Qed.

(** X1 *)
(** [add_filter] on a keyword already stored keeps the keyword order; a new
    keyword is appended after all the others.  No other keyword's payloads
    change. *)
Theorem add_filter_keys_and_others :
  (forall st kw fd t,
     Dict.keys (local_filters (add_filter st kw fd t)) =
     if Dict.mem String.eqb (local_filters st) (py_lower kw)
     then Dict.keys (local_filters st)
     else (Dict.keys (local_filters st) ++ [py_lower kw])%list) /\
  (forall st kw fd t k,
     k <> py_lower kw ->
     fget (local_filters (add_filter st kw fd t)) k = fget (local_filters st) k).
Proof.
  split.
  - intros st kw fd t. unfold add_filter; cbn [local_filters with_filters].
    unfold Dict.mem at 1.
    destruct (fget (local_filters st) (py_lower kw)) eqn:E.
    + rewrite dict_keys_set. unfold Dict.mem. now rewrite E.
    + rewrite dict_keys_set. unfold Dict.mem.
      rewrite dict_get_set_same by apply String.eqb_refl.
      rewrite dict_keys_set. unfold Dict.mem. now rewrite E.
  - intros st kw fd t k Hk. unfold add_filter; cbn [local_filters with_filters].
    rewrite (dict_get_set_other _ String.eqb_eq) by exact Hk.
    destruct (fget (local_filters st) (py_lower kw)); auto.
    now rewrite (dict_get_set_other _ String.eqb_eq).
Qed.

Lemma add_filter_keys_and_others_witness :
  "naruto" <> py_lower "Avenger" /\
  fget (local_filters (add_filter six_filters "Avenger" (payload 13) 5)) "naruto" =
  fget (local_filters six_filters) "naruto".
Proof.
  split; [discriminate|].
  apply (proj2 add_filter_keys_and_others). discriminate.
Defined.

Lemma add_filters_get st kw adds :
  dflt [] (fget (local_filters (add_filters st kw adds)) (py_lower kw)) =
  (dflt [] (fget (local_filters st) (py_lower kw)) ++
   map (fun p => {| fd_chat_id := fd_chat_id (fst p); fd_message_id := fd_message_id (fst p);
                    fd_added_by := fd_added_by (fst p); fd_file_type := fd_file_type (fst p);
                    fd_added_at := Some (snd p) |}) adds)%list.
Proof.
  revert st; induction adds as [|[fd t] adds IH]; intros st; cbn [add_filters map].
  - now rewrite app_nil_r.
  - rewrite IH, add_filter_get. cbn [dflt]. now rewrite <- app_assoc.
Qed.

(** X2 *)
(** Payloads added one after another under a new keyword are replayed in the
    order they were added, up to the cap of 10: for any sequence of adds, a
    trigger copies the first 10 payloads in the order of the adds. *)
Theorem add_filter_replay_order st kw adds chat script :
  fget (local_filters st) (py_lower kw) = None ->
  copies (fst (replay_files chat
                 (firstn 10 (dflt [] (fget (local_filters (add_filters st kw adds)) (py_lower kw))))
                 script)) =
  firstn 10 (map (fun p => copy_target chat (fst p)) adds).
Proof.
  intros H. rewrite add_filters_get, H, replay_files_copies. cbn [dflt app].
  rewrite !firstn_map, map_map. reflexivity.
Qed.

Lemma add_filter_replay_order_witness :
  fget (local_filters ten_users) (py_lower "Avenger") = None /\
  copies (fst (replay_files 8 (firstn 10 (dflt []
    (fget (local_filters (add_filters ten_users "Avenger" (map (fun i => (payload i, i)) [1;2;3;4;5;6;7;8;9;10;11;12])))
          (py_lower "Avenger")))) [])) =
  map (fun i => copy_target 8 (payload i)) [1;2;3;4;5;6;7;8;9;10].
Proof.
  split; [reflexivity|].
  rewrite (add_filter_replay_order ten_users "Avenger" _ 8 [] eq_refl).
  reflexivity.
Defined.

(** X3 *)
(** [delete_filter] of a keyword that is not stored answers [False] and
    changes nothing; otherwise the keyword (lower-cased) is gone afterwards and
    every other keyword keeps its payloads.  A keyword just added is always
    found by [delete_filter] with the same spelling. *)
Theorem delete_filter_spec :
  (forall st kw, Dict.mem String.eqb (local_filters st) (py_lower kw) = false ->
     delete_filter st kw = (st, false)) /\
  (forall st kw, fget (local_filters (fst (delete_filter st kw))) (py_lower kw) = None) /\
  (forall st kw k, k <> py_lower kw ->
     fget (local_filters (fst (delete_filter st kw))) k = fget (local_filters st) k) /\
  (forall st kw fd t, snd (delete_filter (add_filter st kw fd t) kw) = true).
Proof.
  split; [|split; [|split]].
  - intros st kw H. unfold delete_filter. now rewrite H.
  - intros st kw. unfold delete_filter.
    destruct (Dict.mem String.eqb (local_filters st) (py_lower kw)) eqn:E; simpl.
    + apply dict_get_del_same.
    + unfold Dict.mem in E. destruct (fget (local_filters st) (py_lower kw)); congruence.
  - intros st kw k Hk. unfold delete_filter.
    destruct (Dict.mem String.eqb (local_filters st) (py_lower kw)); simpl; auto.
    now apply (dict_get_del_other _ String.eqb_eq).
  - intros st kw fd t. unfold delete_filter, Dict.mem. now rewrite add_filter_get.
Qed.

Lemma delete_filter_spec_witness :
  Dict.mem String.eqb (local_filters six_filters) (py_lower "Gintama") = false /\
  delete_filter six_filters "Gintama" = (six_filters, false).
Proof.
  split; [reflexivity|]. apply (proj1 delete_filter_spec). reflexivity.
Defined.

(** X4 *)
(** [increment_user_search] on an unknown id changes nothing (it does not
    register the user); on a known id it raises that user's [search_count] by
    one (an absent count counts as 0), keeps the user's other fields, and
    leaves every other user as it was. *)
Theorem increment_user_search_spec :
  (forall st uid, uget (local_users st) uid = None -> increment_user_search st uid = st) /\
  (forall st uid r, uget (local_users st) uid = Some r ->
     uget (local_users (increment_user_search st uid)) uid =
     Some {| ui_last_seen := ui_last_seen r; ui_username := ui_username r;
             ui_first_name := ui_first_name r;
             ui_search_count := Some (dflt 0 (ui_search_count r) + 1);
             ui_join_date := ui_join_date r |}) /\
  (forall st uid k, k <> uid ->
     uget (local_users (increment_user_search st uid)) k = uget (local_users st) k).
Proof.
  split; [|split].
  - intros st uid H. unfold increment_user_search. now rewrite H.
  - intros st uid r H. unfold increment_user_search. rewrite H. cbn [local_users with_users].
    apply dict_get_set_same, Z.eqb_refl.
  - intros st uid k Hk. unfold increment_user_search.
    destruct (uget (local_users st) uid); auto. cbn [local_users with_users].
    now apply (dict_get_set_other _ Z.eqb_eq).
Qed.

Lemma increment_user_search_spec_witness :
  uget (local_users ten_users) 11 = None /\ increment_user_search ten_users 11 = ten_users.
Proof.
  split; [reflexivity|]. apply (proj1 increment_user_search_spec). reflexivity.
Defined.

(** X5 *)
(** [add_user] on a new id appends it after all known users and records
    [join_date] and [last_seen] as the current time and [search_count] as the
    one passed in [user_data] (0 when none is passed); the other users are
    unchanged. *)
Theorem add_user_new_user :
  (forall st uid ud t, uget (local_users st) uid = None ->
     uget (local_users (add_user st uid ud t)) uid =
     Some {| ui_last_seen := t;
             ui_username := match ud with Some u => dflt "" (ud_username u) | None => "" end;
             ui_first_name := match ud with Some u => dflt "" (ud_first_name u) | None => "" end;
             ui_search_count := Some (match ud with Some u => dflt 0 (ud_search_count u)
                                                  | None => 0 end);
             ui_join_date := Some t |} /\
     get_all_users (add_user st uid ud t) = (get_all_users st ++ [uid])%list) /\
  (forall st uid ud t k, k <> uid ->
     uget (local_users (add_user st uid ud t)) k = uget (local_users st) k).
Proof.
  split.
  - intros st uid ud t H. unfold add_user, get_all_users, get_user_info.
    cbn [local_users with_users]. rewrite H. split.
    + rewrite dict_get_set_same by apply Z.eqb_refl.
      destruct ud as [[? ? []]|]; reflexivity.
    + rewrite dict_keys_set. unfold Dict.mem. now rewrite H.
  - intros st uid ud t k Hk. unfold add_user; cbn [local_users with_users].
    now apply (dict_get_set_other _ Z.eqb_eq).
Qed.

Lemma add_user_new_user_witness :
  uget (local_users ten_users) 11 = None /\
  get_all_users (add_user ten_users 11 None 7) = [1;2;3;4;5;6;7;8;9;10;11].
Proof.
  split; [reflexivity|].
  rewrite (proj2 (proj1 add_user_new_user ten_users 11 None 7 eq_refl)). reflexivity.
Defined.

(** X6 *)
(** [add_group] refreshes a group's title, username, member count and
    [last_active], and keeps the [join_date] of the first registration: after
    two calls the [join_date] is the first call's time (or the stored one). *)
Theorem add_group_keeps_join_date st cid cd1 cd2 t1 t2 :
  Dict.get Z.eqb (local_groups (add_group (add_group st cid cd1 t1) cid cd2 t2)) cid =
  Some {| gi_title := cd_title cd2; gi_username := cd_username cd2;
          gi_members_count := cd_members_count cd2; gi_last_active := t2;
          gi_join_date := match Dict.get Z.eqb (local_groups st) cid with
                          | Some e => gi_join_date e | None => t1 end |}.
Proof.
  unfold add_group at 1; cbn [local_groups with_groups].
  rewrite dict_get_set_same by apply Z.eqb_refl.
  unfold add_group; cbn [local_groups with_groups].
  rewrite dict_get_set_same by apply Z.eqb_refl. reflexivity.
Qed.

(** X7 *)
(** [increment_stat name] raises the statistic [name] by one (a missing one
    becomes 1) and leaves the other statistics, the filters, users and groups
    unchanged. *)
Theorem increment_stat_spec :
  (forall st name, stat (increment_stat st name) name = stat st name + 1) /\
  (forall st name m, m <> name -> stat (increment_stat st name) m = stat st m) /\
  (forall st name, local_filters (increment_stat st name) = local_filters st /\
                   local_users (increment_stat st name) = local_users st /\
                   local_groups (increment_stat st name) = local_groups st).
Proof.
  split; [|split].
  - intros st name. unfold stat, increment_stat; cbn [local_stats with_stats].
    now rewrite dict_get_set_same by apply String.eqb_refl.
  - intros st name m Hm. unfold stat, increment_stat; cbn [local_stats with_stats].
    now rewrite (dict_get_set_other _ String.eqb_eq).
  - intros st name. repeat split.
Qed.

Lemma increment_stat_spec_witness :
  "total_broadcasts" <> "total_searches" /\
  stat (increment_stat empty_storage "total_searches") "total_broadcasts" =
  stat empty_storage "total_broadcasts".
Proof.
  split; [discriminate|]. apply (proj1 (proj2 increment_stat_spec)). discriminate.
Defined.

(** ** Loop accounting *)

Lemma count_of_cons p u o l :
  count_of p ((u, o) :: l) = (if p o then 1 else 0) + count_of p l.
Proof.
  unfold count_of; cbn [filter snd]. destruct (p o); cbn [Datatypes.length]; lia.
Qed.

Lemma count_of_nil p : count_of p [] = 0.
Proof. reflexivity. Qed.

Lemma filter_filter' {A} (f g : A -> bool) l :
  filter f (filter g l) = filter (fun x => g x && f x) l.
Proof.
  induction l as [|x l IH]; simpl; auto.
  destruct (g x); simpl; [destruct (f x)|]; simpl; congruence.
Qed.

Lemma filter_all {A} (f : A -> bool) l : (forall x, f x = true) -> filter f l = l.
Proof. intros H. induction l as [|x l IH]; simpl; auto. now rewrite H, IH. Qed.

Lemma removed_by_cons u o l kv :
  removed_by ((u, o) :: l) kv = (Z.eqb u (fst kv) && unreachable o) || removed_by l kv.
Proof. reflexivity. Qed.

(** Removing [u] when [o] says so, then the entries removed by [l], is
    removing the entries removed by [(u, o) :: l]. *)
Lemma users_after_cons st u o l :
  filter (fun kv => negb (removed_by l kv))
    (local_users (if unreachable o then remove_user st u else st)) =
  filter (fun kv => negb (removed_by ((u, o) :: l) kv)) (local_users st).
Proof.
  destruct (unreachable o) eqn:Eo.
  - rewrite remove_user_filter, filter_filter'. apply filter_ext. intros kv.
    rewrite removed_by_cons, Eo. destruct (Z.eqb u (fst kv)), (removed_by l kv); reflexivity.
  - apply filter_ext. intros kv. rewrite removed_by_cons, Eo.
    destruct (Z.eqb u (fst kv)); reflexivity.
Qed.

Lemma broadcast_step_effect st tl c m u o :
  match broadcast_step st tl c m u o with
  | (st', tl', _) =>
      st' = (if unreachable o then remove_user st u else st) /\
      success_count tl' = success_count tl + (if delivered o then 1 else 0) /\
      failed_count tl' = failed_count tl + (if unreachable o || other_error o then 1 else 0) /\
      removed_count tl' = removed_count tl + (if unreachable o then 1 else 0)
  end.
Proof. destruct o; simpl; repeat split; first [reflexivity | lia]. Qed.

(** X8 *)
(** A broadcast loop adds to the tally exactly the number of targets that
    received [Delivered] (sent), that were unreachable or hit another error
    (failed) and that were unreachable (removed); afterwards the users are the
    former ones minus the unreachable targets, and filters, groups and
    statistics are untouched. *)
Theorem broadcast_loop_accounting st tl c m users script :
  let l := assign users script in
  match broadcast_loop st tl c m users script with
  | (st', tl', _) =>
      success_count tl' = success_count tl + count_of delivered l /\
      failed_count tl' = failed_count tl + count_of (fun o => unreachable o || other_error o) l /\
      removed_count tl' = removed_count tl + count_of unreachable l /\
      local_users st' = filter (fun kv => negb (removed_by l kv)) (local_users st) /\
      local_filters st' = local_filters st /\ local_groups st' = local_groups st /\
      local_stats st' = local_stats st
  end.
Proof.
  revert st tl script; induction users as [|u us IH]; intros st tl script l; subst l.
  - simpl. rewrite !count_of_nil. repeat split; try lia.
    symmetry. apply filter_all. reflexivity.
  - cbn [broadcast_loop assign]. destruct (pop script) as [o s].
    pose proof (broadcast_step_effect st tl c m u o) as Hs.
    destruct (broadcast_step st tl c m u o) as [[st1 tl1] evs].
    specialize (IH st1 tl1 s). simpl in IH.
    destruct (broadcast_loop st1 tl1 c m us s) as [[st2 tl2] evs2].
    destruct Hs as (-> & Hsc & Hf & Hr).
    destruct IH as (H1 & H2 & H3 & H4 & H5 & H6 & H7).
    rewrite !count_of_cons.
    pose proof (remove_user_other st u) as (Rf & Rg & Rs).
    repeat split.
    + lia.
    + lia.
    + lia.
    + rewrite H4. apply users_after_cons.
    + rewrite H5. destruct (unreachable o); auto.
    + rewrite H6. destruct (unreachable o); auto.
    + rewrite H7. destruct (unreachable o); auto.
Qed.

Lemma length_assign users script : List.length (assign users script) = List.length users.
Proof.
  revert script; induction users as [|u us IH]; intros script; simpl; auto.
  destruct (pop script) as [o s]; simpl; now rewrite IH.
Qed.

Lemma map_fst_assign users script : map fst (assign users script) = users.
Proof.
  revert script; induction users as [|u us IH]; intros script; simpl; auto.
  destruct (pop script) as [o s]; simpl; now rewrite IH.
Qed.

Lemma count_of_partition l :
  count_of delivered l + count_of (fun o => unreachable o || other_error o) l +
  count_of rate_limited l = Z.of_nat (List.length l) /\
  0 <= count_of unreachable l <= count_of (fun o => unreachable o || other_error o) l.
Proof.
  induction l as [|[u o] l IH]; [rewrite !count_of_nil; cbn; lia|].
  rewrite !count_of_cons. cbn [Datatypes.length]. rewrite Nat2Z.inj_succ.
  destruct o; cbn [delivered unreachable other_error rate_limited orb]; lia.
Qed.

(** X9 *)
(** A [/broadcast] run raises [total_broadcasts] by exactly one and leaves
    [total_searches] alone; in its final tally every targeted user is counted
    once as sent, once as failed, or not at all when it was rate-limited, and
    the removed users are among the failed ones. *)
Theorem broadcast_handler_totals st c m script :
  let l := assign (get_all_users st) script in
  match broadcast_handler st c m script with
  | (st', tl, _) =>
      stat st' "total_broadcasts" = stat st "total_broadcasts" + 1 /\
      stat st' "total_searches" = stat st "total_searches" /\
      success_count tl + failed_count tl + count_of rate_limited l =
        Z.of_nat (List.length (get_all_users st)) /\
      0 <= removed_count tl <= failed_count tl
  end.
Proof.
  intros l. unfold broadcast_handler.
  pose proof (broadcast_loop_accounting st tally0 c m (get_all_users st) script) as H.
  simpl in H. fold l in H.
  destruct (broadcast_loop st tally0 c m (get_all_users st) script) as [[st1 tl] evs].
  destruct H as (H1 & H2 & H3 & _ & _ & _ & H7).
  destruct (count_of_partition l) as [P1 P2].
  unfold l in P1; rewrite length_assign in P1; fold l in P1.
  repeat split.
  - rewrite (proj1 increment_stat_spec). unfold stat. now rewrite H7.
  - rewrite (proj1 (proj2 increment_stat_spec)) by discriminate. unfold stat. now rewrite H7.
  - lia.
  - lia.
  - lia.
Qed.

Lemma clean_step st u o r l :
  let st1 := if unreachable o then remove_user st u else st in
  let r1 := if unreachable o then r + 1 else r in
  r1 + count_of unreachable l = r + count_of unreachable ((u, o) :: l) /\
  filter (fun kv => negb (removed_by l kv)) (local_users st1) =
    filter (fun kv => negb (removed_by ((u, o) :: l) kv)) (local_users st) /\
  local_filters st1 = local_filters st /\ local_groups st1 = local_groups st /\
  local_stats st1 = local_stats st.
Proof.
  intros st1 r1. rewrite count_of_cons, <- users_after_cons. fold st1.
  pose proof (remove_user_other st u) as (Rf & Rg & Rs).
  unfold st1, r1. destruct (unreachable o); repeat split; auto; lia.
Qed.

(** The users checked before the loop ends or is aborted are a prefix of the
    list; they are the ones whose outcomes count. *)
Lemma clean_db_loop_accounting st r idx total users script edits :
  match clean_db_loop st r idx total users script edits with
  | (st', r', _, aborted) =>
      exists k, (k <= List.length users)%nat /\ (aborted = false -> k = List.length users) /\
      r' = r + count_of unreachable (assign (firstn k users) script) /\
      local_users st' =
        filter (fun kv => negb (removed_by (assign (firstn k users) script) kv)) (local_users st) /\
      local_filters st' = local_filters st /\ local_groups st' = local_groups st /\
      local_stats st' = local_stats st
  end.
Proof.
  revert st r idx script edits; induction users as [|u us IH]; intros st r idx script edits.
  - simpl. exists 0%nat. rewrite count_of_nil. repeat split; try lia.
    symmetry. apply filter_all. reflexivity.
  - cbn [clean_db_loop]. destruct (pop script) as [o s] eqn:Ep.
    assert (Ha : forall k, assign (firstn (S k) (u :: us)) script = (u, o) :: assign (firstn k us) s).
    { intros k. cbn [firstn assign]. rewrite Ep. reflexivity. }
    set (st1 := if unreachable o then remove_user st u else st).
    set (r1 := if unreachable o then r + 1 else r).
    assert (Hp : (if unreachable o then (remove_user st u, r + 1) else (st, r)) = (st1, r1)).
    { unfold st1, r1. destruct (unreachable o); reflexivity. }
    rewrite Hp.
    assert (Hrec : forall ed,
      match clean_db_loop st1 r1 (S idx) total us s ed with
      | (st', r', _, aborted) =>
          exists k, (k <= List.length (u :: us))%nat /\
          (aborted = false -> k = List.length (u :: us)) /\
          r' = r + count_of unreachable (assign (firstn k (u :: us)) script) /\
          local_users st' = filter (fun kv => negb (removed_by (assign (firstn k (u :: us)) script) kv))
                              (local_users st) /\
          local_filters st' = local_filters st /\ local_groups st' = local_groups st /\
          local_stats st' = local_stats st
      end).
    { intros ed. specialize (IH st1 r1 (S idx) s ed).
      destruct (clean_db_loop st1 r1 (S idx) total us s ed) as [[[st2 r2] ed2] ab].
      destruct IH as (k & Hk & Hab & H1 & H2 & H3 & H4 & H5).
      destruct (clean_step st u o r (assign (firstn k us) s)) as (C1 & C2 & C3 & C4 & C5).
      fold st1 r1 in C1, C2, C3, C4, C5.
      exists (S k). rewrite Ha. cbn [Datatypes.length].
      repeat split; try lia; try congruence.
      intros Hf. rewrite (Hab Hf). reflexivity. }
    destruct (Nat.eqb _ 0); [|apply Hrec].
    destruct (pop edits) as [e ed].
    destruct e; try apply Hrec;
      destruct (clean_step st u o r []) as (C1 & C2 & C3 & C4 & C5);
      fold st1 r1 in C1, C2, C3, C4, C5;
      exists 1%nat; rewrite Ha; cbn [firstn assign Datatypes.length];
      rewrite count_of_nil in C1;
      (repeat split; [lia|discriminate|lia| |exact C3|exact C4|exact C5]);
      rewrite <- C2; symmetry; apply filter_all; reflexivity.
Qed.

(** When every status message operation succeeds the loop is never aborted. *)
Lemma clean_db_loop_no_abort st r idx total users script :
  exists st' r', clean_db_loop st r idx total users script [] = (st', r', [], false).
Proof.
  revert st r idx script; induction users as [|u us IH]; intros st r idx script.
  - exists st, r. reflexivity.
  - cbn [clean_db_loop]. destruct (pop script) as [o s].
    destruct (if unreachable o then (remove_user st u, r + 1) else (st, r)) as [st1 r1].
    destruct (Nat.eqb _ 0); apply IH.
Qed.

Lemma removed_by_in l kv : removed_by l kv = true -> In (fst kv) (map fst l).
Proof.
  induction l as [|[u o] l IH]; simpl; [discriminate|].
  intros H. apply orb_prop in H as [H|H].
  - apply andb_prop in H as [H _]. apply Z.eqb_eq in H. now left.
  - right. now apply IH.
Qed.

(** With distinct user ids, the entries left are the ones not answered
    unreachable. *)
Lemma removed_length (d : list (Z * UserInfo)) script :
  NoDup (Dict.keys d) ->
  Z.of_nat (List.length (filter (fun kv => negb (removed_by (assign (Dict.keys d) script) kv)) d)) =
  Z.of_nat (List.length d) - count_of unreachable (assign (Dict.keys d) script).
Proof.
  revert script; induction d as [|[k v] d IH]; intros script Hnd; [reflexivity|].
  unfold Dict.keys in *; cbn [map fst] in *.
  inversion Hnd as [|? ? Hk Hnd']; subst.
  cbn [assign]. destruct (pop script) as [o s].
  rewrite count_of_cons.
  assert (Hhead : removed_by (assign (map fst d) s) (k, v) = false).
  { destruct (removed_by _ (k, v)) eqn:E; auto.
    apply removed_by_in in E. rewrite map_fst_assign in E. contradiction. }
  assert (Htail : filter (fun kv => negb (removed_by ((k, o) :: assign (map fst d) s) kv)) d =
                  filter (fun kv => negb (removed_by (assign (map fst d) s) kv)) d).
  { apply filter_ext_in. intros [k' v'] Hin. rewrite removed_by_cons.
    destruct (Z.eqb k (fst (k', v'))) eqn:E; [|reflexivity].
    apply Z.eqb_eq in E. simpl in E. subst k'.
    exfalso. apply Hk. apply (in_map fst) in Hin. exact Hin. }
  cbn [filter]. rewrite removed_by_cons, Hhead, Z.eqb_refl, orb_false_r.
  specialize (IH s Hnd').
  destruct (unreachable o); cbn [andb negb]; rewrite Htail;
    cbn [Datatypes.length]; lia.
Qed.

(** X10 *)
(** [/cleandb] checks a prefix of the users, in order: all of them when no
    status message operation raises.  Among the checked users it removes
    exactly those whose check answered unreachable (blocked, invalid peer); a
    rate-limit or any other error keeps the user, and unchecked users are
    kept.  The report, when shown, gives the number checked and removed and,
    the user ids being distinct, an [Active] figure equal to the number of
    users left.  When every status message operation succeeds the report is
    always shown. *)
Theorem clean_db_spec st script edits :
  (match clean_db_handler st script edits with
   | (st', report) =>
       exists k, (k <= List.length (get_all_users st))%nat /\
       let l := assign (firstn k (get_all_users st)) script in
       local_users st' = filter (fun kv => negb (removed_by l kv)) (local_users st) /\
       local_filters st' = local_filters st /\ local_groups st' = local_groups st /\
       local_stats st' = local_stats st /\
       match report with
       | None => True
       | Some (checked, removed, active) =>
           k = List.length (get_all_users st) /\
           checked = Z.of_nat (List.length (get_all_users st)) /\
           removed = count_of unreachable l /\
           (NoDup (get_all_users st) -> Z.of_nat (List.length (local_users st')) = active)
       end
   end) /\
  (exists r, snd (clean_db_handler st script []) = Some r).
Proof.
  split.
  - unfold clean_db_handler. destruct (pop edits) as [e0 ed].
    assert (Hnone : exists k, (k <= List.length (get_all_users st))%nat /\
       let l := assign (firstn k (get_all_users st)) script in
       local_users st = filter (fun kv => negb (removed_by l kv)) (local_users st) /\
       local_filters st = local_filters st /\ local_groups st = local_groups st /\
       local_stats st = local_stats st /\ True).
    { exists 0%nat. cbn. repeat split; try lia. symmetry. apply filter_all. reflexivity. }
    destruct e0; try exact Hnone.
    pose proof (clean_db_loop_accounting st 0 0 (List.length (get_all_users st))
                  (get_all_users st) script ed) as H.
    destruct (clean_db_loop st 0 0 _ (get_all_users st) script ed) as [[[st' r] ed'] ab].
    destruct H as (k & Hk & Hab & H1 & H2 & H3 & H4 & H5).
    destruct ab.
    + exists k. cbv zeta. repeat split; auto.
    + destruct (pop ed') as [e _].
      specialize (Hab eq_refl). subst k. rewrite firstn_all in H1, H2.
      destruct e; try (exists (List.length (get_all_users st)); rewrite firstn_all;
                       cbv zeta; repeat split; auto; lia).
      exists (List.length (get_all_users st)). rewrite firstn_all. cbv zeta.
      repeat split; auto.
      intros Hnd. rewrite H2, H1. unfold get_all_users in *.
      rewrite removed_length by exact Hnd. unfold Dict.keys. rewrite length_map. lia.
  - unfold clean_db_handler. cbn [pop].
    destruct (clean_db_loop_no_abort st 0 0 (List.length (get_all_users st))
                (get_all_users st) script) as (st' & r' & ->).
    cbn [pop snd]. eexists. reflexivity.
Qed.

Lemma clean_db_spec_witness :
  NoDup (get_all_users ten_users) /\
  match clean_db_handler ten_users [Delivered; UserIsBlocked; FloodWait 20; OtherError; PeerIdInvalid] [] with
  | (st', Some (_, _, active)) => Z.of_nat (List.length (local_users st')) = active
  | (_, None) => False
  end.
Proof.
  assert (Hnd : NoDup (get_all_users ten_users)).
  { cbn.
    repeat (apply NoDup_cons; [simpl; lia|]).
    apply NoDup_nil. }
  split; [exact Hnd|].
  destruct (clean_db_spec ten_users [Delivered; UserIsBlocked; FloodWait 20; OtherError; PeerIdInvalid] [])
    as [H [r Hr]].
  destruct (clean_db_handler ten_users _ []) as [st' rep].
  cbn [snd] in Hr. subst rep. destruct r as [[ch rm] act].
  destruct H as (k & _ & _ & _ & _ & _ & _ & _ & _ & Hn).
  exact (Hn Hnd).
Defined.

Lemma ascii_lower_idem c : ascii_lower (ascii_lower c) = ascii_lower c.
Proof. destruct c as [[] [] [] [] [] [] [] []]; vm_compute; reflexivity. Qed.

Lemma py_lower_idem s : py_lower (py_lower s) = py_lower s.
Proof.
  unfold py_lower. rewrite list_ascii_of_string_of_list_ascii, map_map.
  f_equal. apply map_ext. exact ascii_lower_idem.
Qed.

Lemma is_prefix_refl l : is_prefix l l = true.
Proof. induction l as [|a l IH]; simpl; [reflexivity|]. now rewrite Ascii.eqb_refl, IH. Qed.

Lemma py_in_refl s : py_in s s = true.
Proof. unfold py_in. simpl. now rewrite is_prefix_refl. Qed.

Lemma py_in_empty s : py_in "" s = true.
Proof. reflexivity. Qed.

(** X11 *)
(** [search_filters] lower-cases the query, so a query and its lower-cased
    form find the same keys, and the empty query (which occurs in every key)
    returns every stored key in insertion order. *)
Theorem search_filters_case_and_empty st q :
  search_filters st (py_lower q) = search_filters st q /\
  search_filters st "" = Dict.keys (local_filters st).
Proof.
  split.
  - unfold search_filters. now rewrite py_lower_idem.
  - unfold search_filters. apply filter_all. intros k. apply py_in_empty.
Qed.

(** X12 *)
(** Every key [search_filters] returns is a stored key, and a stored key that
    equals the lower-cased query is always found. *)
Theorem search_filters_sound_and_exact st q k :
  incl (search_filters st q) (Dict.keys (local_filters st)) /\
  (In k (Dict.keys (local_filters st)) -> k = py_lower q -> In k (search_filters st q)).
Proof.
  split.
  - intros x Hx. unfold search_filters in Hx. now apply filter_In in Hx.
  - intros Hk ->. unfold search_filters. apply filter_In. split; [exact Hk|].
    apply py_in_refl.
Qed.

Lemma search_filters_sound_and_exact_witness :
  In "naruto" (Dict.keys (local_filters six_filters)) /\ "naruto" = py_lower "NaRuTo" /\
  In "naruto" (search_filters six_filters "NaRuTo").
Proof.
  assert (H1 : In "naruto" (Dict.keys (local_filters six_filters))) by (vm_compute; tauto).
  assert (H2 : "naruto" = py_lower "NaRuTo") by reflexivity.
  split; [exact H1|]. split; [exact H2|].
  exact (proj2 (search_filters_sound_and_exact six_filters "NaRuTo" "naruto") H1 H2).
Defined.

Lemma combine_seq_snd {A} a (l : list A) : map snd (combine (seq a (List.length l)) l) = l.
Proof. revert a; induction l as [|x l IH]; intros a; simpl; [reflexivity|]. now rewrite IH. Qed.

Lemma combine_seq_fst {A} a (l : list A) :
  map fst (combine (seq a (List.length l)) l) = seq a (List.length l).
Proof. revert a; induction l as [|x l IH]; intros a; simpl; [reflexivity|]. now rewrite IH. Qed.

(** X13 *)
(** [/searchfilter] answers "No filters found" (or the usage) exactly when
    there is no argument or nothing matches; otherwise it shows the first
    [min 20 n] of the [n] found keys, numbered from 1, in the order found,
    and [total_pages] is the least page count covering [n] keys at 20 a page. *)
Theorem search_filter_handler_pagination st args :
  let found := search_filters st (py_join_space args) in
  match search_filter_handler st args with
  | None => args = [] \/ found = []
  | Some (rows, pages) =>
      args <> [] /\ found <> [] /\
      List.length rows = Nat.min 20 (List.length found) /\
      (pages - 1) * 20 < Z.of_nat (List.length found) <= pages * 20 /\
      map (fun r => snd (fst r)) rows = firstn 20 found /\
      map (fun r => fst (fst r)) rows = map (fun i => Z.of_nat i + 1) (seq 0 (List.length rows))
  end.
Proof.
  intros found. unfold search_filter_handler.
  destruct args as [|a args]; [now left|].
  fold found.
  destruct found as [|f fs] eqn:Ef; [now right|].
  cbv zeta.
  set (page := firstn 20 (f :: fs)).
  assert (Hlen : List.length (map (fun ik : nat * string => (Z.of_nat (fst ik) + 1, snd ik,
            List.length (dflt [] (fget (local_filters st) (snd ik)))))
            (combine (seq 0 (List.length page)) page)) = List.length page).
  { rewrite length_map, length_combine, length_seq. lia. }
  split; [discriminate|]. split; [discriminate|].
  split; [rewrite Hlen; unfold page; apply length_firstn|].
  split.
  - set (n := Z.of_nat (List.length (f :: fs))).
    assert (Hn : 1 <= n) by (unfold n; simpl; lia).
    pose proof (Z.div_mod (n + 20 - 1) 20 ltac:(lia)).
    pose proof (Z.mod_pos_bound (n + 20 - 1) 20 ltac:(lia)).
    lia.
  - split.
    + rewrite map_map. cbn [fst snd]. fold page.
      exact (combine_seq_snd 0 page).
    + rewrite Hlen, map_map. cbn [fst snd].
      rewrite <- (map_map fst (fun i => Z.of_nat i + 1)), combine_seq_fst. reflexivity.
Qed.

Definition files_geq (a b : string * list FileData) : Prop :=
  (List.length (snd b) <= List.length (snd a))%nat.

Lemma insert_by_files_perm x l : Permutation (insert_by_files x l) (x :: l).
Proof.
  induction l as [|y l IH]; simpl; [reflexivity|].
  destruct (_ <=? _)%nat; [reflexivity|].
  rewrite IH. apply perm_swap.
Qed.

Lemma sort_by_files_perm l : Permutation (sort_by_files l) l.
Proof.
  induction l as [|x l IH]; simpl; [reflexivity|].
  rewrite insert_by_files_perm. now apply perm_skip.
Qed.

Lemma insert_by_files_hd y x l :
  HdRel files_geq y l -> files_geq y x -> HdRel files_geq y (insert_by_files x l).
Proof.
  intros Hl Hx. destruct l as [|z l]; simpl; [now constructor|].
  destruct (_ <=? _)%nat; constructor; [exact Hx|]. now inversion Hl.
Qed.

Lemma insert_by_files_sorted x l :
  Sorted files_geq l -> Sorted files_geq (insert_by_files x l).
Proof.
  induction l as [|y l IH]; intros Hs; simpl; [now repeat constructor|].
  destruct (_ <=? _)%nat eqn:E.
  - constructor; [exact Hs|]. constructor. unfold files_geq. now apply Nat.leb_le.
  - apply Sorted_inv in Hs as [Hs Hh]. constructor; [now apply IH|].
    apply insert_by_files_hd; [exact Hh|]. unfold files_geq.
    apply Nat.leb_gt in E. lia.
Qed.

Lemma sort_by_files_sorted l : Sorted files_geq (sort_by_files l).
Proof. induction l as [|x l IH]; simpl; [constructor|]. now apply insert_by_files_sorted. Qed.

Lemma sorted_counts (l : list (string * list FileData)) :
  Sorted files_geq l ->
  Sorted (fun a b : string * nat => (snd b <= snd a)%nat)
         (map (fun kv => (fst kv, List.length (snd kv))) l).
Proof.
  induction 1 as [|x l Hs IH Hh]; simpl; constructor; [exact IH|].
  destruct Hh as [|y l' Hy]; simpl; constructor. exact Hy.
Qed.

(** X14 *)
(** [/listfilters] answers "No filters" exactly when no filter is stored;
    otherwise it lists [min 50 n] of the [n] keywords with their file counts,
    taken from the front of an arrangement of all of them by non-increasing
    file count, and its [total_files] is the sum of all the counts. *)
Theorem list_filters_handler_spec st :
  match list_filters_handler st with
  | None => local_filters st = []
  | Some (rows, total) =>
      local_filters st <> [] /\
      List.length rows = Nat.min 50 (List.length (local_filters st)) /\
      total = list_sum (map (fun kv => List.length (snd kv)) (local_filters st)) /\
      exists R, Permutation R (map (fun kv => (fst kv, List.length (snd kv))) (local_filters st)) /\
        Sorted (fun a b : string * nat => (snd b <= snd a)%nat) R /\
        rows = firstn 50 R
  end.
Proof.
  unfold list_filters_handler.
  destruct (local_filters st) as [|kv fs] eqn:E; [reflexivity|].
  rewrite <- E. cbv zeta.
  split; [rewrite E; discriminate|].
  set (R := map (fun kv0 => (fst kv0, List.length (snd kv0))) (sort_by_files (local_filters st))).
  assert (HP : Permutation R (map (fun kv0 => (fst kv0, List.length (snd kv0))) (local_filters st))).
  { unfold R. apply Permutation_map, sort_by_files_perm. }
  split.
  - rewrite length_map, length_firstn.
    rewrite (Permutation_length (sort_by_files_perm _)). reflexivity.
  - split; [reflexivity|]. exists R. split; [exact HP|]. split.
    + apply sorted_counts, sort_by_files_sorted.
    + unfold R. now rewrite firstn_map.
Qed.
